(** * Coverage-guided dead-code elimination: the Babel plugin of [build.js]

    A shallow embedding of [isSameFunction], [isSameStatement], the three
    visitors of [removeUnusedCode] and the top-level build script, with the
    properties of the coverage-to-AST matching and rewriting engine. *)

From stdpp Require Import base strings list gmap.
From Stdlib Require Import ZArith Lia.

Local Open Scope Z_scope.
Local Set Warnings "-register-all".

(** ** JavaScript values and completions *)

(** The values an [&&]/[||] chain of the matchers can evaluate to. *)
Inductive Value : Type :=
  | JsUndefined
  | JsNull
  | JsBool (b : bool)
  | JsString (s : string).

(** ToBoolean: what [!v] and [if (v)] test. *)
Definition truthy (v : Value) : bool :=
  match v with
  | JsUndefined | JsNull => false
  | JsBool b => b
  | JsString s => negb (String.eqb s EmptyString)
  end.

Inductive Error : Type :=
  | TypeError                 (* property read on undefined or null *)
  | Exception (msg : string). (* a value thrown by a collaborator   *)

(** A JavaScript evaluation either returns or throws. *)
Inductive Completion (A : Type) : Type :=
  | Normal (a : A)
  | Throw (e : Error).
Arguments Normal {A} a.
Arguments Throw {A} e.

#[export] Instance Completion_ret : MRet Completion := fun _ a => Normal a.
#[export] Instance Completion_bind : MBind Completion := fun _ _ k c =>
  match c with
  | Normal a => k a
  | Throw e => Throw e
  end.

(** ** Source locations, AST nodes, coverage reports *)

Record Position : Type := { line : Z; column : Z }.
Record SourceLocation : Type := { start : Position; end_ : Position }.

Record Identifier : Type := { name : string }.

(** Babel nodes, tagged by their [type]. [loc] is absent on nodes made by
    the builders of [t]. *)
Inductive Node : Type :=
  | NFunctionDeclaration (id : option Identifier) (params : list Node)
                         (body : Node) (loc : option SourceLocation)
  | NFunctionExpression (id : option Identifier) (params : list Node)
                        (body : Node) (loc : option SourceLocation)
  | NBlockStatement (body : list Node) (loc : option SourceLocation)
  | NAssignmentExpression (operator : string) (left right : Node)
                          (loc : option SourceLocation)
  | NOther (type : string) (children : list Node)
           (loc : option SourceLocation).

(** [node.type] *)
Definition type (n : Node) : string :=
  match n with
  | NFunctionDeclaration _ _ _ _ => "FunctionDeclaration"
  | NFunctionExpression _ _ _ _ => "FunctionExpression"
  | NBlockStatement _ _ => "BlockStatement"
  | NAssignmentExpression _ _ _ _ => "AssignmentExpression"
  | NOther ty _ _ => ty
  end.

(** [node.loc] *)
Definition loc (n : Node) : option SourceLocation :=
  match n with
  | NFunctionDeclaration _ _ _ l | NFunctionExpression _ _ _ l
  | NBlockStatement _ l | NAssignmentExpression _ _ _ l | NOther _ _ l => l
  end.

(** [node.id]: [null] on an anonymous function, [undefined] elsewhere. *)
Definition id (n : Node) : option Identifier :=
  match n with
  | NFunctionDeclaration i _ _ _ | NFunctionExpression i _ _ _ => i
  | _ => None
  end.

(** [node.id = v] on a function node. *)
Definition set_id (v : option Identifier) (n : Node) : Node :=
  match n with
  | NFunctionDeclaration _ ps b l => NFunctionDeclaration v ps b l
  | NFunctionExpression _ ps b l => NFunctionExpression v ps b l
  | _ => n
  end.

(** The builders of [@babel/types] used by the plugin. *)
Module t.
Definition blockStatement (body : list Node) : Node :=
  NBlockStatement body None.
Definition functionDeclaration
    (id : option Identifier) (params : list Node) (body : Node) : Node :=
  NFunctionDeclaration id params body None.
Definition functionExpression
    (id : option Identifier) (params : list Node) (body : Node) : Node :=
  NFunctionExpression id params body None.
End t.

(** An entry of [fnMap]. [fn_name] is the entry's [name], [fn_loc] its
    [loc]; either may be missing from the object. *)
Record FnDesc : Type := {
  fn_name : option string;
  fn_loc : option SourceLocation
}.

(** The coverage of one file. [fnMap] and [statementMap] are kept in the
    order in which [for ... in] enumerates their keys; an entry of
    [statementMap] is itself a location. *)
Record FileCoverage : Type := {
  fnMap : list (string * FnDesc);
  f : gmap string Z;
  statementMap : list (string * SourceLocation);
  s : gmap string Z
}.

(** [counts[key] === 0] *)
Definition isZero (counts : gmap string Z) (key : string) : bool :=
  match counts !! key with
  | Some n => n =? 0
  | None => false
  end.

(** ** The location matchers *)

(** [nodeB.name] as a value *)
Definition nameValue (nodeB : FnDesc) : Value :=
  match fn_name nodeB with
  | Some nm => JsString nm
  | None => JsUndefined
  end.

(** [nodeA.id && nodeA.id.name === nodeB.name] as a boolean *)
Definition sameName (a : Node) (b : FnDesc) : bool :=
  match id a, fn_name b with
  | Some i, Some nm => String.eqb (name i) nm
  | _, _ => false
  end.

Definition isSameFunction
    (nodeA : option Node) (nodeB : option FnDesc) : Completion Value :=
  match nodeA with
  | None => Normal JsNull
  | Some a =>
    match loc a with
    | None => Normal JsUndefined
    | Some locA =>
      match nodeB with
      | None => Normal JsUndefined
      | Some b =>
        if negb (truthy (nameValue b)) then Normal (nameValue b)
        else
          match fn_loc b with
          | None => Throw TypeError
          | Some locB =>
            if negb (line (start locA) =? line (start locB))
            then Normal (JsBool false)
            else Normal (JsBool (sameName a b
                                 || (line (end_ locA) =? line (end_ locB))))
          end
      end
    end
  end.

Definition isSameStatement (locA locB : option SourceLocation) : Value :=
  match locA with
  | None => JsUndefined
  | Some a =>
    match locB with
    | None => JsUndefined
    | Some b =>
      JsBool ((line (start a) =? line (start b))
              && (line (end_ a) =? line (end_ b))
              && (column (start a) =? column (start b)))
    end
  end.

(** ** Paths and the visitors of [removeUnusedCode] *)

(** What a visitor sees of a Babel path: the node at that position ([null]
    once removed) and the parent node. *)
Record NodePath : Type := { node : option Node; parent : Node }.

(** [path.replaceWith(replacement)] *)
Definition replaceWith (replacement : Node) (path : NodePath) : NodePath :=
  {| node := Some replacement; parent := parent path |}.

(** [path.remove()] *)
Definition remove (path : NodePath) : NodePath :=
  {| node := None; parent := parent path |}.

(** [path.node.id] *)
Definition nodeId (path : NodePath) : Completion (option Identifier) :=
  match node path with
  | Some n => Normal (id n)
  | None => Throw TypeError
  end.

(** The stub of the [FunctionDeclaration] visitor. *)
Definition declarationNoop (path : NodePath) : Completion Node :=
  i ← nodeId path;
  mret (t.functionDeclaration i [] (t.blockStatement [])).

(** The stub of the [FunctionExpression] visitor. *)
Definition expressionNoop (path : NodePath) : Completion Node :=
  mret (t.functionExpression None [] (t.blockStatement [])).

(** [for (const fnNum in coverage.fnMap) { ... }], the loop that both
    function visitors run; they differ in the stub they build. *)
Fixpoint forInFnMap (noop : NodePath → Completion Node)
    (coverage : FileCoverage) (path : NodePath)
    (entries : list (string * FnDesc)) : Completion NodePath :=
  match entries with
  | [] => mret path
  | (fnNum, fn) :: rest =>
    same ← isSameFunction (node path) (Some fn);
    if negb (truthy same) then forInFnMap noop coverage path rest
    else
      let isDeadCode := isZero (f coverage) fnNum in
      if negb isDeadCode then forInFnMap noop coverage path rest
      else
        stub ← noop path;
        mret (replaceWith stub path)
  end.

(** [path.node && !isSameStatement(path.node.loc, s)] *)
Definition notSameStatement (path : NodePath) (s_ : SourceLocation) : bool :=
  match node path with
  | Some n => negb (truthy (isSameStatement (loc n) (Some s_)))
  | None => false
  end.

(** [for (const sNum in coverage.statementMap) { ... }]. A key enumerated by
    [for ... in] is a string, so the [typeof sNum === 'undefined'] guard
    never fires. *)
Fixpoint forInStatementMap (coverage : FileCoverage) (path : NodePath)
    (entries : list (string * SourceLocation)) : NodePath :=
  match entries with
  | [] => path
  | (sNum, s_) :: rest =>
    if notSameStatement path s_ then forInStatementMap coverage path rest
    else
      let isDeadCode := isZero (s coverage) sNum in
      if negb isDeadCode then forInStatementMap coverage path rest
      else
        match node path with
        | Some _ => remove path
        | None => path
        end
  end.

(** [if (path.node.id && path.parent.type === 'AssignmentExpression')
      path.node.id = null;] *)
Definition stripAssignedName (path : NodePath) : Completion NodePath :=
  match node path with
  | None => Throw TypeError
  | Some n =>
    match id n with
    | Some _ =>
      if String.eqb (type (parent path)) "AssignmentExpression"
      then mret {| node := Some (set_id None n); parent := parent path |}
      else mret path
    | None => mret path
    end
  end.

Module visitor.
Section visitor.
(** The coverage report collected from the instrumented run, and
    [this.filename]. *)
Variable coverageForFiles : gmap string FileCoverage.
Variable filename : string.

Definition FunctionDeclaration (path : NodePath) : Completion NodePath :=
  match coverageForFiles !! filename with
  | None => mret path
  | Some coverage =>
    forInFnMap declarationNoop coverage path (fnMap coverage)
  end.

Definition FunctionExpression (path : NodePath) : Completion NodePath :=
  path ← stripAssignedName path;
  match coverageForFiles !! filename with
  | None => mret path
  | Some coverage =>
    forInFnMap expressionNoop coverage path (fnMap coverage)
  end.

Definition Statement (path : NodePath) : NodePath :=
  match coverageForFiles !! filename with
  | None => path
  | Some coverage =>
    forInStatementMap coverage path (statementMap coverage)
  end.

End visitor.
End visitor.

(** ** Verdicts *)

(** Whether the matcher is satisfied by a function node and a descriptor,
    as the loop tests it with [!isSameFunction(path.node, fn)]. *)
Definition matchesFunction (n : Node) (fn : FnDesc) : bool :=
  match isSameFunction (Some n) (Some fn) with
  | Normal v => truthy v
  | Throw _ => false
  end.

(** Whether the matcher is satisfied by a statement node and a descriptor. *)
Definition matchesStatement (n : Node) (s_ : SourceLocation) : bool :=
  truthy (isSameStatement (loc n) (Some s_)).

(** Some entry of [fnMap] satisfies the matcher and has hit count [0]. *)
Definition hasDeadFunctionEntry (coverage : FileCoverage) (n : Node) : bool :=
  existsb (λ e, matchesFunction n e.2 && isZero (f coverage) e.1)
          (fnMap coverage).

(** Some entry of [statementMap] satisfies the matcher and has hit count
    [0]; no entry does when the file has no report. *)
Definition isDeadStatement (coverageForFiles : gmap string FileCoverage)
    (filename : string) (n : Node) : bool :=
  match coverageForFiles !! filename with
  | None => false
  | Some coverage =>
    existsb (λ e, matchesStatement n e.2 && isZero (s coverage) e.1)
            (statementMap coverage)
  end.

(** The node a function expression is after [stripAssignedName]. *)
Definition normalized (parent : Node) (n : Node) : Node :=
  match id n with
  | Some _ =>
    if String.eqb (type parent) "AssignmentExpression"
    then set_id None n else n
  | None => n
  end.

Inductive Verdict : Type := Live | Dead | NoData.

(** The classifier in the words of the specification, to compare the
    visitors with: the entries are scanned in their stored order, the
    first one satisfying the matcher is used, and the node is [Dead] when
    its hit count is exactly [0], [Live] otherwise; [NoData] when none
    satisfies the matcher. *)
Definition firstMatchVerdict {D : Type} (matches : D → bool)
    (counts : gmap string Z) (entries : list (string * D)) : Verdict :=
  match List.find (λ e, matches e.2) entries with
  | None => NoData
  | Some e => if isZero counts e.1 then Dead else Live
  end.

(** Every entry of [fnMap] has its [loc]. *)
Definition locatedEntries (coverage : FileCoverage) : Prop :=
  Forall (λ e, is_Some (fn_loc e.2)) (fnMap coverage).

(** ** The build script *)

(** What a run of the script does to the outside world. *)
Inductive Effect : Type :=
  | WriteFile (file data : string)
  | ConsoleLog (msg : string)
  | ConsoleWarn (msg : string)
  | ConsoleError (err : Error).

(** A step of the script: it extends the effects performed so far (oldest
    first) and returns or throws. *)
Definition Script (A : Type) : Type :=
  list Effect → list Effect * Completion A.

#[export] Instance Script_ret : MRet Script := λ _ a log, (log, Normal a).
#[export] Instance Script_bind : MBind Script := λ _ _ k m log,
  match m log with
  | (log', Normal a) => k a log'
  | (log', Throw e) => (log', Throw e)
  end.

Definition perform (e : Effect) : Script unit :=
  λ log, (log ++ [e], Normal tt).

Definition call {A : Type} (c : Completion A) : Script A :=
  λ log, (log, c).

(** [try { body } catch (err) { handler }] *)
Definition tryCatch {A : Type}
    (body : Script A) (handler : Error → Script A) : Script A :=
  λ log,
    match body log with
    | (log', Normal a) => (log', Normal a)
    | (log', Throw err) => handler err log'
    end.

Section build.
(** The collaborators of the script. [Context] is a [vm] context after a
    program ran in it. *)
Variable Context : Type.
(** [readFileSync(filename)] *)
Variable readFileSync : Completion string.
(** [babel.transform(code, { plugins: [babelPluginIstanbul] }).code] *)
Variable instrument : string → Completion string.
(** [new vm.Script(code)] run in a new context *)
Variable runInNewContext : string → Completion Context.
(** [context.module.exports.precompile(input)]: the value returned and the
    context afterwards, with the counters the call incremented *)
Variable precompile : Context → string → Completion (string * Context).
(** [context.__coverage__], the object that the instrumented program
    updates as it runs *)
Variable coverage__ : Context → gmap string FileCoverage.
(** [babel.transform(code, { plugins: [removeUnusedCode] }).code] *)
Variable transform : gmap string FileCoverage → string → Completion string.
(** [Terser.minify(code, ...).code] *)
Variable minify : string → Completion string.
(** The test input of the script. *)
Variable test : string.
(** The text of the message of success, with the rounded percentage it
    computes from the lengths of the trimmed and of the original code. *)
Variable succeeded : string → string → string.

(** [try { ... } catch (err) { console.error(err) }] of the script *)
Definition validate
    (templateCompilerCode trimmedCode beforeTestOutput : string)
    : Script unit :=
  tryCatch
    (context ← call (runInNewContext trimmedCode);
     out ← call (precompile context test);
     let afterTestOutput := out.1 in
     if String.eqb afterTestOutput beforeTestOutput then
       perform (ConsoleLog (succeeded trimmedCode templateCompilerCode));;
       perform (ConsoleLog afterTestOutput)
     else
       perform (ConsoleWarn
                  "Output from trimmed code different from original!");;
       perform (ConsoleLog ("original: " +:+ beforeTestOutput));;
       perform (ConsoleLog ("after   : " +:+ afterTestOutput)))
    (λ err, perform (ConsoleError err)).

Definition build : Script unit :=
  templateCompilerCode ← call readFileSync;
  perform (WriteFile "original.js" templateCompilerCode);;
  instrumentedTemplateCompiler ← call (instrument templateCompilerCode);
  perform (WriteFile "instrumented.js" instrumentedTemplateCompiler);;
  context ← call (runInNewContext instrumentedTemplateCompiler);
  out ← call (precompile context test);
  let beforeTestOutput := out.1 in
  let coverageForFiles := coverage__ out.2 in
  trimmedCode ← call (transform coverageForFiles templateCompilerCode);
  perform (WriteFile "trimmed.js" trimmedCode);;
  validate templateCompilerCode trimmedCode beforeTestOutput;;
  uglifiedCode ← call (minify trimmedCode);
  perform (WriteFile "uglified.js" uglifiedCode).

End build.

(** ** What the specification says of the function matcher *)

(** The start lines agree, and the node carries an identifier whose name
    is the descriptor's or the end lines agree. *)
Definition startLineAndNameOrEndLine (a : Node) (b : FnDesc) : Prop :=
  ∃ locA locB, loc a = Some locA ∧ fn_loc b = Some locB ∧
    line (start locA) = line (start locB) ∧
    ((∃ i, id a = Some i ∧ fn_name b = Some (name i)) ∨
     line (end_ locA) = line (end_ locB)).

(** [coverage] with another [fnMap] *)
Definition withFnMap (entries : list (string * FnDesc))
    (coverage : FileCoverage) : FileCoverage :=
  {| fnMap := entries; f := f coverage;
     statementMap := statementMap coverage; s := s coverage |}.

(** [coverage] with another [statementMap] *)
Definition withStatementMap (entries : list (string * SourceLocation))
    (coverage : FileCoverage) : FileCoverage :=
  {| fnMap := fnMap coverage; f := f coverage;
     statementMap := entries; s := s coverage |}.

(** [loc] with another end column *)
Definition withEndColumn (c : Z) (l : SourceLocation) : SourceLocation :=
  {| start := start l; end_ := {| line := line (end_ l); column := c |} |}.

(** The files a run wrote, oldest first, each with its data. *)
Definition writes (log : list Effect) : list (string * string) :=
  omap (λ e, match e with
             | WriteFile file data => Some (file, data)
             | _ => None
             end) log.

(** The four files of a run, in the order in which the script writes
    them. *)
Definition artifacts : list string :=
  ["original.js"; "instrumented.js"; "trimmed.js"; "uglified.js"].

(** ** Sample nodes and reports *)

Definition pos (l c : Z) : Position := {| line := l; column := c |}.

Definition lines3to5 : SourceLocation :=
  {| start := pos 3 0; end_ := pos 5 1 |}.

Definition returnStatement : Node :=
  NOther "ReturnStatement" []
         (Some {| start := pos 4 2; end_ := pos 4 11 |}).

Definition helperBody : Node :=
  NBlockStatement [returnStatement]
                  (Some {| start := pos 3 18; end_ := pos 5 1 |}).

(** [function helper() { return 1; }] on lines 3 to 5 *)
Definition helper : Node :=
  NFunctionDeclaration (Some {| name := "helper" |}) [] helperBody
                       (Some lines3to5).

(** An anonymous function expression on lines 3 to 5 *)
Definition anonymous : Node :=
  NFunctionExpression None [] helperBody (Some lines3to5).

(** A descriptor of lines 3 to 5 that has no [name] *)
Definition nameless : FnDesc :=
  {| fn_name := None; fn_loc := Some lines3to5 |}.

Definition file : string := "ember-template-compiler.js".

(** [each(function () { used() }, function () { unused() })] on line 3:
    the two function expressions, and the call they are arguments of *)
Definition usedCallback : Node :=
  NFunctionExpression None []
    (NBlockStatement [NOther "ExpressionStatement" []
                        (Some {| start := pos 3 20; end_ := pos 3 27 |})]
                     (Some {| start := pos 3 18; end_ := pos 3 28 |}))
    (Some {| start := pos 3 5; end_ := pos 3 28 |}).

Definition unusedCallback : Node :=
  NFunctionExpression None []
    (NBlockStatement [NOther "ExpressionStatement" []
                        (Some {| start := pos 3 45; end_ := pos 3 53 |})]
                     (Some {| start := pos 3 43; end_ := pos 3 55 |}))
    (Some {| start := pos 3 30; end_ := pos 3 55 |}).

Definition eachCall : Node :=
  NOther "CallExpression" [usedCallback; unusedCallback]
         (Some {| start := pos 3 0; end_ := pos 3 56 |}).

(** The report of a run that called the first callback once and the
    second never: both descriptors are of line 3. *)
Definition oneLineCoverage : FileCoverage :=
  {| fnMap :=
       [("0", {| fn_name := Some "(anonymous_0)";
                 fn_loc := Some {| start := pos 3 18; end_ := pos 3 28 |} |});
        ("1", {| fn_name := Some "(anonymous_1)";
                 fn_loc := Some {| start := pos 3 43; end_ := pos 3 55 |} |})];
     f := {[ "0" := 1; "1" := 0 ]};
     statementMap :=
       [("0", {| start := pos 3 0; end_ := pos 3 57 |});
        ("1", {| start := pos 3 20; end_ := pos 3 27 |});
        ("2", {| start := pos 3 45; end_ := pos 3 53 |})];
     s := {[ "0" := 1; "1" := 1; "2" := 0 ]} |}.

(** The report of the scenario of the specification: [helper], on lines 3
    to 5, never called. *)
Definition helperCoverage : FileCoverage :=
  {| fnMap := [("0", {| fn_name := Some "helper";
                        fn_loc := Some lines3to5 |})];
     f := {[ "0" := 0 ]};
     statementMap := [("0", {| start := pos 4 2; end_ := pos 4 11 |})];
     s := {[ "0" := 0 ]} |}.

(** [f = function f() { return 1; }]: the function expression on the
    right of an assignment, without location or with one *)
Definition assignedTo (right : Node) : Node :=
  NAssignmentExpression "=" (NOther "Identifier" [] None) right None.

Definition namedExpression (l : option SourceLocation) : Node :=
  NFunctionExpression (Some {| name := "f" |}) [] helperBody l.

(** A block of three statements, on lines 10, 11 and 12, and a report
    in which the first ran once, the second never, and the third has no
    entry. *)
Definition statementAt (l : Z) : Node :=
  NOther "ExpressionStatement" []
         (Some {| start := pos l 2; end_ := pos l 9 |}).

Definition threeStatements : Node :=
  NBlockStatement [statementAt 10; statementAt 11; statementAt 12]
                  (Some {| start := pos 9 0; end_ := pos 13 1 |}).

Definition blockCoverage : FileCoverage :=
  {| fnMap := []; f := ∅;
     statementMap := [("7", {| start := pos 10 2; end_ := pos 10 9 |});
                      ("8", {| start := pos 11 2; end_ := pos 11 9 |})];
     s := {[ "7" := 1; "8" := 0 ]} |}.


(** Collaborators for a run of the script: a context is the program that
    ran in it; the trimmed program throws when it is called in the first
    set, the original program already does in the second. *)
Definition sampleInstrument (code : string) : Completion string :=
  Normal ("instrumented " +:+ code).

Definition sampleRun (code : string) : Completion string := Normal code.

Definition prunedThrows (context input : string)
    : Completion (string * string) :=
  if String.eqb context "trimmed"
  then Throw (Exception "helper is not a function")
  else Normal ("output", context).

Definition originalThrows (context input : string)
    : Completion (string * string) :=
  Throw (Exception "precompile failed").

Definition originalOutput (context input : string)
    : Completion (string * string) :=
  Normal ("output", context).

Definition contextOutput (context input : string)
    : Completion (string * string) :=
  Normal (context, context).

Definition sampleCoverage (context : string) : gmap string FileCoverage :=
  {[ file := helperCoverage ]}.

Definition sampleTransform
    (coverageForFiles : gmap string FileCoverage) (code : string)
    : Completion string :=
  Normal "trimmed".

Definition sampleMinify (code : string) : Completion string :=
  Normal "uglified".

Definition sampleSucceeded (trimmedCode templateCompilerCode : string)
    : string :=
  "Trimming succeeded!".

(** * Properties *)

(** ** Properties of the matchers *)

Lemma truthy_nameValue (b : FnDesc) :
  truthy (nameValue b) = true ↔ ∃ nm, fn_name b = Some nm ∧ nm ≠ EmptyString.
Proof.
  unfold nameValue. destruct (fn_name b) as [nm|]; simpl.
  - rewrite negb_true_iff, String.eqb_neq. split.
    + intros H. by exists nm.
    + by intros (? & [= <-] & H).
  - split; [done|]. by intros (? & ? & _).
Qed.

Lemma sameName_true (a : Node) (b : FnDesc) :
  sameName a b = true ↔ ∃ i, id a = Some i ∧ fn_name b = Some (name i).
Proof.
  unfold sameName. destruct (id a) as [i|], (fn_name b) as [nm|]; simpl.
  - rewrite String.eqb_eq. split.
    + intros <-. by exists i.
    + by intros (? & [= <-] & [= <-]).
  - split; [done|]. by intros (? & _ & ?).
  - split; [done|]. by intros (? & ? & _).
  - split; [done|]. by intros (? & ? & _).
Qed.

(** What [isSameFunction] evaluates to on a node and a descriptor whose
    name is truthy, both with a location. *)
Lemma isSameFunction_located (a : Node) (b : FnDesc) locA locB :
  loc a = Some locA → fn_loc b = Some locB → truthy (nameValue b) = true →
  isSameFunction (Some a) (Some b) =
  Normal (JsBool ((line (start locA) =? line (start locB))
                  && (sameName a b
                      || (line (end_ locA) =? line (end_ locB))))).
Proof.
  intros Ha Hb Hn. unfold isSameFunction. rewrite Ha, Hb, Hn. simpl.
  by destruct (line (start locA) =? line (start locB)).
Qed.

(** A truthy result of [isSameFunction] is the boolean [true]. *)
Lemma isSameFunction_truthy (nodeA : option Node) (nodeB : option FnDesc) v :
  isSameFunction nodeA nodeB = Normal v → truthy v = true → v = JsBool true.
Proof.
  unfold isSameFunction.
  destruct nodeA as [a|]; [|by intros [= <-]].
  destruct (loc a) as [locA|]; [|by intros [= <-]].
  destruct nodeB as [b|]; [|by intros [= <-]].
  destruct (truthy (nameValue b)) eqn:Hn; simpl.
  - destruct (fn_loc b) as [locB|]; [|done].
    destruct (line (start locA) =? line (start locB)); simpl;
      intros [= <-]; simpl; by intros ->.
  - intros [= <-]. congruence.
Qed.

(** C2, as amended: [isSameFunction] returns [true] if and only if the
    descriptor's name is present and not empty, the node's start line is
    the descriptor's start line, and the node carries an identifier whose
    name is the descriptor's or the node's end line is the descriptor's end
    line; and it returns no other truthy value. *)
Theorem isSameFunction_true_iff (a : Node) (b : FnDesc) :
  (isSameFunction (Some a) (Some b) = Normal (JsBool true) ↔
   (∃ nm, fn_name b = Some nm ∧ nm ≠ EmptyString) ∧
   startLineAndNameOrEndLine a b) ∧
  (∀ v, isSameFunction (Some a) (Some b) = Normal v →
        truthy v = true → v = JsBool true).
Proof.
  split; [|intros v; apply isSameFunction_truthy].
  rewrite <- truthy_nameValue. unfold startLineAndNameOrEndLine. split.
  - unfold isSameFunction.
    destruct (loc a) as [locA|] eqn:Ha; [|done].
    destruct (truthy (nameValue b)) eqn:Hn; simpl.
    + destruct (fn_loc b) as [locB|] eqn:Hb; [|done].
      destruct (Z.eqb_spec (line (start locA)) (line (start locB))); simpl;
        [|done].
      intros [= [H|H]%orb_true_iff]; (split; [done|]);
        exists locA, locB; repeat split; try done.
      * left. by apply sameName_true.
      * right. by apply Z.eqb_eq.
    + intros [= H]. unfold nameValue in *. by destruct (fn_name b).
  - intros (Hn & locA & locB & Ha & Hb & Hs & He).
    rewrite (isSameFunction_located a b locA locB Ha Hb Hn).
    do 2 f_equal. apply andb_true_iff. split; [by apply Z.eqb_eq|].
    apply orb_true_iff. destruct He as [He|He].
    + left. by apply sameName_true.
    + right. by apply Z.eqb_eq.
Qed.

(** C2, as the claim states it, fails: an anonymous function on lines 3 to
    5 and a descriptor of lines 3 to 5 agree on the start line and on the
    end line, and [isSameFunction] returns [undefined], the descriptor's
    missing name. *)
Lemma isSameFunction_nameless_counterexample :
  startLineAndNameOrEndLine anonymous nameless ∧
  isSameFunction (Some anonymous) (Some nameless) = Normal JsUndefined ∧
  isSameFunction (Some anonymous) (Some nameless) ≠ Normal (JsBool true).
Proof.
  split; [|split; [reflexivity|discriminate]].
  exists lines3to5, lines3to5. repeat split. by right.
Qed.

(** C3: on a node location and a statement descriptor, [isSameStatement]
    returns [true] if and only if the start lines, the end lines and the
    start columns are equal, and [false] otherwise. *)
Theorem isSameStatement_true_iff (locA locB : SourceLocation) :
  (isSameStatement (Some locA) (Some locB) = JsBool true ↔
   line (start locA) = line (start locB) ∧
   line (end_ locA) = line (end_ locB) ∧
   column (start locA) = column (start locB)) ∧
  (isSameStatement (Some locA) (Some locB) = JsBool true ∨
   isSameStatement (Some locA) (Some locB) = JsBool false).
Proof.
  unfold isSameStatement. split.
  - rewrite <- !Z.eqb_eq. split.
    + intros [= H]. by apply andb_true_iff in H as [[??]%andb_true_iff ?].
    + intros (-> & -> & ->). done.
  - destruct (_ && _ && _); auto.
Qed.

(** [isSameFunction] throws only on a descriptor that lacks its [loc]. *)
Lemma isSameFunction_returns (nodeA : option Node) (b : FnDesc) :
  is_Some (fn_loc b) → ∃ v, isSameFunction nodeA (Some b) = Normal v.
Proof.
  intros [locB Hb]. unfold isSameFunction. rewrite Hb.
  destruct nodeA as [a|]; [|by eexists].
  destruct (loc a) as [locA|]; [|by eexists].
  destruct (negb (truthy (nameValue b))); [by eexists|].
  destruct (negb (line (start locA) =? line (start locB))); by eexists.
Qed.

(** It does throw there, once the node has a location and the descriptor a
    name. *)
Example isSameFunction_throws :
  isSameFunction (Some helper)
                 (Some {| fn_name := Some "helper"; fn_loc := None |}) =
  Throw TypeError.
Proof. reflexivity. Qed.

(** The scenario of the specification: [helper], on lines 3 to 5, and its
    descriptor. *)
Example isSameFunction_helper :
  isSameFunction (Some helper)
                 (Some {| fn_name := Some "helper";
                          fn_loc := Some lines3to5 |}) =
  Normal (JsBool true).
Proof. reflexivity. Qed.

(** On a descriptor whose name is falsy, [isSameFunction] returns before
    it reads the descriptor's location. *)
Lemma isSameFunction_falsy_name (nodeA : option Node) (b : FnDesc) :
  truthy (nameValue b) = false →
  ∃ v, isSameFunction nodeA (Some b) = Normal v ∧ truthy v = false.
Proof.
  intros Hn. unfold isSameFunction.
  destruct nodeA as [a|]; [|by eexists].
  destruct (loc a) as [locA|]; [|by eexists].
  rewrite Hn. simpl. by eexists.
Qed.

(** The loop passes over an entry whose name is falsy. *)
Lemma forInFnMap_skip_falsy_name noop coverage path before k b after :
  truthy (nameValue b) = false →
  forInFnMap noop coverage path (before ++ (k, b) :: after) =
  forInFnMap noop coverage path (before ++ after).
Proof.
  intros Hn. induction before as [|[fnNum fn] before IH]; simpl.
  - destruct (isSameFunction_falsy_name (node path) b Hn) as (v & -> & Hv).
    simpl. by rewrite Hv.
  - destruct (isSameFunction (node path) (Some fn)) as [v|e]; simpl; [|done].
    destruct (negb (truthy v)); [done|].
    by destruct (negb (isZero (f coverage) fnNum)).
Qed.

Lemma forInFnMap_withFnMap noop coverage path other entries :
  forInFnMap noop (withFnMap other coverage) path entries =
  forInFnMap noop coverage path entries.
Proof.
  induction entries as [|[fnNum fn] entries IH]; simpl; [done|].
  destruct (isSameFunction (node path) (Some fn)) as [v|e]; simpl; [|done].
  by rewrite IH.
Qed.

(** C10: against a descriptor whose name is absent or empty the function
    matcher returns a falsy value for every node, also when the start and
    end lines agree, and the function visitors do what they do on the
    report without that descriptor: it never has a function stubbed. *)
Theorem falsy_name_never_matches (b : FnDesc)
    (Hname : truthy (nameValue b) = false) :
  (∀ nodeA, ∃ v, isSameFunction nodeA (Some b) = Normal v ∧
                 truthy v = false) ∧
  (∀ n, matchesFunction n b = false) ∧
  (∀ coverageForFiles filename coverage before k after path,
     coverageForFiles !! filename = Some coverage →
     fnMap coverage = before ++ (k, b) :: after →
     let without :=
       <[filename := withFnMap (before ++ after) coverage]> coverageForFiles in
     visitor.FunctionDeclaration coverageForFiles filename path =
     visitor.FunctionDeclaration without filename path ∧
     visitor.FunctionExpression coverageForFiles filename path =
     visitor.FunctionExpression without filename path).
Proof.
  split; [|split].
  - intros nodeA. by apply isSameFunction_falsy_name.
  - intros n. unfold matchesFunction.
    by destruct (isSameFunction_falsy_name (Some n) b Hname) as (v & -> & ?).
  - intros cfs fname coverage before k after path Hcov Hmap without.
    unfold visitor.FunctionDeclaration, visitor.FunctionExpression, without.
    rewrite Hcov, lookup_insert_eq, Hmap. simpl.
    rewrite !forInFnMap_withFnMap.
    split.
    + by apply forInFnMap_skip_falsy_name.
    + destruct (stripAssignedName path) as [path'|e]; simpl; [|done].
      rewrite forInFnMap_withFnMap.
      by apply forInFnMap_skip_falsy_name.
Qed.

Lemma falsy_name_never_matches_witness :
  truthy (nameValue nameless) = false ∧
  matchesFunction anonymous nameless = false.
Proof.
  split; [reflexivity|].
  apply (proj1 (proj2 (falsy_name_never_matches nameless eq_refl))).
Defined.

(** ** Properties of the normalization *)

Lemma stripAssignedName_normalized (p n : Node) :
  stripAssignedName {| node := Some n; parent := p |} =
  Normal {| node := Some (normalized p n); parent := p |}.
Proof.
  unfold stripAssignedName, normalized. simpl.
  destruct (id n); [|done].
  by destruct (String.eqb (type p) "AssignmentExpression").
Qed.

(** C7: on a function expression that has no identifier, whatever its
    parent, the normalization changes neither the identifier field nor the
    rest of the node. *)
Theorem stripAssignedName_anonymous (n p : Node) (Hid : id n = None) :
  stripAssignedName {| node := Some n; parent := p |} =
  Normal {| node := Some n; parent := p |} ∧
  normalized p n = n.
Proof.
  rewrite stripAssignedName_normalized. unfold normalized. by rewrite Hid.
Qed.

Lemma stripAssignedName_anonymous_witness :
  id anonymous = None ∧
  stripAssignedName
    {| node := Some anonymous;
       parent := NAssignmentExpression "=" (NOther "Identifier" [] None)
                                       anonymous None |} =
  Normal {| node := Some anonymous;
            parent := NAssignmentExpression "=" (NOther "Identifier" [] None)
                                            anonymous None |}.
Proof.
  split; [reflexivity|].
  apply (proj1 (stripAssignedName_anonymous anonymous _ eq_refl)).
Defined.

(** ** Properties of the function visitors *)

Lemma matchesFunction_returns (n : Node) (fn : FnDesc) :
  is_Some (fn_loc fn) →
  ∃ v, isSameFunction (Some n) (Some fn) = Normal v ∧
       truthy v = matchesFunction n fn.
Proof.
  intros Hloc. unfold matchesFunction.
  destruct (isSameFunction_returns (Some n) fn Hloc) as [v ->]. by exists v.
Qed.

(** The loop over located entries: the path is replaced by the stub when
    some entry satisfies the matcher with hit count [0], and is returned
    as it is otherwise. *)
Lemma forInFnMap_scan noop coverage (p n : Node) entries :
  Forall (λ e, is_Some (fn_loc e.2)) entries →
  forInFnMap noop coverage {| node := Some n; parent := p |} entries =
  if existsb (λ e, matchesFunction n e.2 && isZero (f coverage) e.1) entries
  then stub ← noop {| node := Some n; parent := p |};
       mret (replaceWith stub {| node := Some n; parent := p |})
  else Normal {| node := Some n; parent := p |}.
Proof.
  induction 1 as [|[fnNum fn] entries Hloc _ IH]; [done|].
  cbn [forInFnMap existsb node fst snd].
  destruct (matchesFunction_returns n fn Hloc) as (v & -> & Hv).
  unfold mbind at 1, Completion_bind at 1. rewrite Hv.
  destruct (matchesFunction n fn); cbn [negb andb orb]; [|done].
  by destruct (isZero (f coverage) fnNum).
Qed.

Lemma isZero_true (counts : gmap string Z) (key : string) :
  isZero counts key = true ↔ counts !! key = Some 0.
Proof.
  unfold isZero. destruct (counts !! key) as [z|]; [|done].
  rewrite Z.eqb_eq. split; congruence.
Qed.

Lemma hasDeadFunctionEntry_true (coverage : FileCoverage) (n : Node) :
  hasDeadFunctionEntry coverage n = true ↔
  ∃ fnNum fn, In (fnNum, fn) (fnMap coverage) ∧
              matchesFunction n fn = true ∧ f coverage !! fnNum = Some 0.
Proof.
  unfold hasDeadFunctionEntry. rewrite existsb_exists. split.
  - intros ([fnNum fn] & Hin & [Hm Hz]%andb_true_iff).
    exists fnNum, fn. by rewrite <- isZero_true.
  - intros (fnNum & fn & Hin & Hm & Hz). exists (fnNum, fn).
    split; [done|]. simpl. rewrite Hm. by apply isZero_true.
Qed.

(** A node whose first satisfying entry has hit count [0] has an entry
    that satisfies the matcher with hit count [0]. *)
Lemma firstMatchVerdict_Dead {D : Type} (matches : D → bool)
    (counts : gmap string Z) (entries : list (string * D)) :
  firstMatchVerdict matches counts entries = Dead →
  existsb (λ e, matches e.2 && isZero counts e.1) entries = true.
Proof.
  unfold firstMatchVerdict.
  destruct (List.find _ entries) as [e|] eqn:Hfind; [|done].
  destruct (isZero counts e.1) eqn:Hz; [|done]. intros _.
  apply find_some in Hfind as [Hin Hm]. apply existsb_exists.
  exists e. by rewrite Hm, Hz.
Qed.

(** C1, as amended: for a function node whose file has a coverage report
    (with located entries), the node is rewritten to a stub if and only if
    some descriptor of the function-entry table that satisfies the location
    matcher for that node has a hit count of exactly 0; a satisfying
    descriptor with a nonzero hit count is passed over and the later
    descriptors are still consulted. The node is kept otherwise, a function
    expression as the normalization left it, which is also the node the
    matcher is given. *)
Theorem stubbed_iff_some_dead_entry
    (coverageForFiles : gmap string FileCoverage) (filename : string)
    (coverage : FileCoverage) (p n : Node)
    (Hreport : coverageForFiles !! filename = Some coverage)
    (Hlocated : locatedEntries coverage) :
  (∀ m, hasDeadFunctionEntry coverage m = true ↔
        ∃ fnNum fn, In (fnNum, fn) (fnMap coverage) ∧
                    matchesFunction m fn = true ∧
                    f coverage !! fnNum = Some 0) ∧
  visitor.FunctionDeclaration coverageForFiles filename
      {| node := Some n; parent := p |} =
    Normal {| node := Some (if hasDeadFunctionEntry coverage n
                            then t.functionDeclaration (id n) []
                                   (t.blockStatement [])
                            else n);
              parent := p |} ∧
  visitor.FunctionExpression coverageForFiles filename
      {| node := Some n; parent := p |} =
    Normal {| node := Some (if hasDeadFunctionEntry coverage (normalized p n)
                            then t.functionExpression None []
                                   (t.blockStatement [])
                            else normalized p n);
              parent := p |}.
Proof.
  split; [|split].
  - intros m. apply hasDeadFunctionEntry_true.
  - unfold visitor.FunctionDeclaration. rewrite Hreport.
    rewrite forInFnMap_scan by done. fold (hasDeadFunctionEntry coverage n).
    by destruct (hasDeadFunctionEntry coverage n).
  - unfold visitor.FunctionExpression.
    rewrite stripAssignedName_normalized. simpl. rewrite Hreport.
    rewrite forInFnMap_scan by done.
    fold (hasDeadFunctionEntry coverage (normalized p n)).
    by destruct (hasDeadFunctionEntry coverage (normalized p n)).
Qed.

Lemma stubbed_iff_some_dead_entry_witness :
  ({[ file := oneLineCoverage ]} : gmap string FileCoverage) !! file =
    Some oneLineCoverage ∧
  locatedEntries oneLineCoverage ∧
  visitor.FunctionExpression {[ file := oneLineCoverage ]} file
      {| node := Some unusedCallback; parent := eachCall |} =
    Normal {| node := Some (t.functionExpression None []
                              (t.blockStatement []));
              parent := eachCall |}.
Proof.
  assert (Hlocated : locatedEntries oneLineCoverage)
    by (repeat constructor; by eexists).
  split; [reflexivity|]. split; [exact Hlocated|].
  refine (proj2 (proj2 (stubbed_iff_some_dead_entry
                          {[ file := oneLineCoverage ]} file oneLineCoverage
                          eachCall unusedCallback _ Hlocated))).
  reflexivity.
Defined.

(** C1, as the claim states it, fails: the first descriptor that satisfies
    the matcher for the callback that was called has hit count 1, so that
    the callback is [Live] by the first satisfying descriptor, and the
    visitor goes on to the second descriptor, which satisfies the matcher
    too and has hit count 0, and replaces the callback by the stub. *)
Lemma first_match_counterexample :
  List.find (λ e, matchesFunction usedCallback e.2) (fnMap oneLineCoverage) =
    Some ("0", {| fn_name := Some "(anonymous_0)";
                  fn_loc := Some {| start := pos 3 18;
                                    end_ := pos 3 28 |} |}) ∧
  f oneLineCoverage !! "0" = Some 1 ∧
  firstMatchVerdict (matchesFunction usedCallback) (f oneLineCoverage)
                    (fnMap oneLineCoverage) = Live ∧
  visitor.FunctionExpression {[ file := oneLineCoverage ]} file
      {| node := Some usedCallback; parent := eachCall |} =
    Normal {| node := Some (t.functionExpression None []
                              (t.blockStatement []));
              parent := eachCall |} ∧
  t.functionExpression None [] (t.blockStatement []) ≠ usedCallback.
Proof.
  repeat split; try reflexivity. discriminate.
Qed.

(** C5: a function declaration that is classified dead (its first
    satisfying descriptor has hit count 0, or any satisfying descriptor
    has) and carries the identifier [ident] is replaced by a function
    declaration with the identifier [ident], no parameter and an empty
    body. *)
Theorem dead_declaration_keeps_name
    (coverageForFiles : gmap string FileCoverage) (filename : string)
    (coverage : FileCoverage) (p : Node)
    (ident : Identifier) (ps : list Node) (b : Node)
    (l : option SourceLocation)
    (Hreport : coverageForFiles !! filename = Some coverage)
    (Hlocated : locatedEntries coverage)
    (Hdead :
       firstMatchVerdict
         (matchesFunction (NFunctionDeclaration (Some ident) ps b l))
         (f coverage) (fnMap coverage) = Dead ∨
       hasDeadFunctionEntry coverage
         (NFunctionDeclaration (Some ident) ps b l) = true) :
  visitor.FunctionDeclaration coverageForFiles filename
      {| node := Some (NFunctionDeclaration (Some ident) ps b l);
         parent := p |} =
    Normal {| node := Some (NFunctionDeclaration (Some ident) []
                              (NBlockStatement [] None) None);
              parent := p |}.
Proof.
  assert (Hentry : hasDeadFunctionEntry coverage
                     (NFunctionDeclaration (Some ident) ps b l) = true).
  { destruct Hdead as [Hfirst|]; [|done].
    by apply firstMatchVerdict_Dead in Hfirst. }
  unfold visitor.FunctionDeclaration. rewrite Hreport.
  rewrite forInFnMap_scan by done.
  fold (hasDeadFunctionEntry coverage
          (NFunctionDeclaration (Some ident) ps b l)).
  by rewrite Hentry.
Qed.

Lemma dead_declaration_keeps_name_witness :
  firstMatchVerdict (matchesFunction helper) (f helperCoverage)
                    (fnMap helperCoverage) = Dead ∧
  visitor.FunctionDeclaration {[ file := helperCoverage ]} file
      {| node := Some helper; parent := NOther "Program" [helper] None |} =
    Normal {| node := Some (NFunctionDeclaration (Some {| name := "helper" |})
                              [] (NBlockStatement [] None) None);
              parent := NOther "Program" [helper] None |}.
Proof.
  split; [reflexivity|].
  refine (dead_declaration_keeps_name
            {[ file := helperCoverage ]} file helperCoverage _
            {| name := "helper" |} [] helperBody (Some lines3to5) _ _ _).
  - reflexivity.
  - repeat constructor; by eexists.
  - left; reflexivity.
Defined.

(** ** Nodes without a report, nodes without a location *)

(** C4, as amended: when the file has no entry in the coverage report, a
    function declaration and a statement are left identical to their
    input, and a function expression is left as the normalization, which
    runs before the report is looked up, leaves it: identical to its
    input, unless it carries an identifier and its parent is an assignment
    expression, when its identifier is set to [null] and nothing else
    changes. *)
Theorem no_report_no_rewrite
    (coverageForFiles : gmap string FileCoverage) (filename : string)
    (p n : Node) (Hnone : coverageForFiles !! filename = None) :
  visitor.FunctionDeclaration coverageForFiles filename
      {| node := Some n; parent := p |} =
    Normal {| node := Some n; parent := p |} ∧
  visitor.Statement coverageForFiles filename
      {| node := Some n; parent := p |} =
    {| node := Some n; parent := p |} ∧
  visitor.FunctionExpression coverageForFiles filename
      {| node := Some n; parent := p |} =
    Normal {| node := Some (normalized p n); parent := p |} ∧
  (id n = None ∨ type p ≠ "AssignmentExpression" → normalized p n = n) ∧
  (is_Some (id n) → type p = "AssignmentExpression" →
   normalized p n = set_id None n).
Proof.
  unfold visitor.FunctionDeclaration, visitor.Statement,
    visitor.FunctionExpression.
  rewrite stripAssignedName_normalized, Hnone. simpl.
  repeat split; unfold normalized.
  - intros [->|Hp]; [done|]. destruct (id n); [|done].
    by apply String.eqb_neq in Hp as ->.
  - intros [i ->] ->. done.
Qed.

Lemma no_report_no_rewrite_witness :
  (∅ : gmap string FileCoverage) !! file = None ∧
  visitor.FunctionDeclaration ∅ file
      {| node := Some helper; parent := NOther "Program" [helper] None |} =
    Normal {| node := Some helper;
              parent := NOther "Program" [helper] None |}.
Proof.
  split; [reflexivity|].
  refine (proj1 (no_report_no_rewrite ∅ file _ helper _)). reflexivity.
Defined.

(** C4, as the claim states it, fails: no file has a report, and the
    named function expression on the right of an assignment loses its
    identifier. *)
Lemma no_report_counterexample :
  (∅ : gmap string FileCoverage) !! file = None ∧
  visitor.FunctionExpression ∅ file
      {| node := Some (namedExpression (Some lines3to5));
         parent := assignedTo (namedExpression (Some lines3to5)) |} =
    Normal {| node := Some (NFunctionExpression None [] helperBody
                              (Some lines3to5));
              parent := assignedTo (namedExpression (Some lines3to5)) |} ∧
  NFunctionExpression None [] helperBody (Some lines3to5) ≠
    namedExpression (Some lines3to5).
Proof.
  repeat split; try reflexivity. discriminate.
Qed.

Lemma isSameFunction_no_loc (n : Node) (nodeB : option FnDesc) :
  loc n = None → isSameFunction (Some n) nodeB = Normal JsUndefined.
Proof. intros Hloc. unfold isSameFunction. by rewrite Hloc. Qed.

(** The loop of the function visitors on a node without location: every
    entry is passed over, whatever the entry holds. *)
Lemma forInFnMap_no_loc noop coverage (p n : Node) entries :
  loc n = None →
  forInFnMap noop coverage {| node := Some n; parent := p |} entries =
  Normal {| node := Some n; parent := p |}.
Proof.
  intros Hloc. induction entries as [|[fnNum fn] entries IH]; [done|].
  cbn [forInFnMap node]. by rewrite isSameFunction_no_loc.
Qed.

(** The loop of the statement visitor: the path is removed when some
    entry satisfies the matcher with hit count [0]. *)
Lemma forInStatementMap_scan coverage (p n : Node) entries :
  forInStatementMap coverage {| node := Some n; parent := p |} entries =
  if existsb (λ e, matchesStatement n e.2 && isZero (s coverage) e.1) entries
  then {| node := None; parent := p |}
  else {| node := Some n; parent := p |}.
Proof.
  induction entries as [|[sNum s_] entries IH]; [done|].
  cbn [forInStatementMap existsb fst snd].
  unfold notSameStatement. cbn [node]. fold (matchesStatement n s_).
  destruct (matchesStatement n s_); cbn [negb andb orb]; [|done].
  by destruct (isZero (s coverage) sNum).
Qed.

Lemma matchesStatement_no_loc (n : Node) (s_ : SourceLocation) :
  loc n = None → matchesStatement n s_ = false.
Proof. intros Hloc. unfold matchesStatement. by rewrite Hloc. Qed.

Lemma existsb_no_match {D : Type} (matches : D → bool)
    (counts : gmap string Z) (entries : list (string * D)) :
  (∀ d, matches d = false) →
  existsb (λ e, matches e.2 && isZero counts e.1) entries = false ∧
  firstMatchVerdict matches counts entries = NoData.
Proof.
  intros Hno. split.
  - induction entries as [|e entries IH]; [done|]. simpl.
    by rewrite Hno, IH.
  - unfold firstMatchVerdict.
    destruct (List.find _ entries) as [e|] eqn:Hfind; [|done].
    apply find_some in Hfind as [_ Hm]. by rewrite Hno in Hm.
Qed.

Lemma normalized_loc (p n : Node) : loc (normalized p n) = loc n.
Proof.
  unfold normalized. destruct (id n); [|done].
  destruct (String.eqb _ _); [|done]. by destruct n.
Qed.

(** C9, as amended: for a node whose location is absent, no visitor and
    no matcher throws, every matcher invocation returns [undefined] (no
    match), whatever the descriptor, the node's verdict is [NoData], and
    the node is neither stubbed nor removed: a function declaration and a
    statement are left untouched, and a function expression is left as the
    normalization leaves it, still without location. *)
Theorem missing_loc_never_matches (n : Node) (Hloc : loc n = None) :
  (∀ nodeB, isSameFunction (Some n) nodeB = Normal JsUndefined) ∧
  (∀ locB, isSameStatement (loc n) locB = JsUndefined) ∧
  truthy JsUndefined = false ∧
  (∀ coverage,
     firstMatchVerdict (matchesFunction n) (f coverage) (fnMap coverage) =
       NoData ∧
     firstMatchVerdict (matchesStatement n) (s coverage)
                       (statementMap coverage) = NoData) ∧
  (∀ coverageForFiles filename p,
     visitor.FunctionDeclaration coverageForFiles filename
         {| node := Some n; parent := p |} =
       Normal {| node := Some n; parent := p |} ∧
     visitor.Statement coverageForFiles filename
         {| node := Some n; parent := p |} =
       {| node := Some n; parent := p |} ∧
     visitor.FunctionExpression coverageForFiles filename
         {| node := Some n; parent := p |} =
       Normal {| node := Some (normalized p n); parent := p |} ∧
     loc (normalized p n) = None).
Proof.
  assert (Hfn : ∀ d, matchesFunction n d = false).
  { intros d. unfold matchesFunction. by rewrite isSameFunction_no_loc. }
  assert (Hst : ∀ d, matchesStatement n d = false).
  { intros d. by apply matchesStatement_no_loc. }
  split; [|split; [|split; [|split]]].
  - intros nodeB. by apply isSameFunction_no_loc.
  - intros locB. by rewrite Hloc.
  - done.
  - intros coverage. split; by apply existsb_no_match.
  - intros cfs fname p.
    unfold visitor.FunctionDeclaration, visitor.Statement,
      visitor.FunctionExpression.
    rewrite stripAssignedName_normalized. cbn [mbind Completion_bind].
    assert (Hloc' : loc (normalized p n) = None)
      by by rewrite normalized_loc.
    destruct (cfs !! fname) as [coverage|]; [|done].
    rewrite !forInFnMap_no_loc by done.
    rewrite forInStatementMap_scan.
    by rewrite (proj1 (existsb_no_match _ _ _ Hst)).
Qed.

Lemma missing_loc_never_matches_witness :
  loc (t.functionDeclaration (Some {| name := "helper" |}) []
         (t.blockStatement [])) = None ∧
  visitor.FunctionDeclaration {[ file := helperCoverage ]} file
      {| node := Some (t.functionDeclaration (Some {| name := "helper" |}) []
                         (t.blockStatement []));
         parent := NOther "Program" [] None |} =
    Normal {| node := Some (t.functionDeclaration
                              (Some {| name := "helper" |}) []
                              (t.blockStatement []));
              parent := NOther "Program" [] None |}.
Proof.
  split; [reflexivity|].
  apply (proj1 (proj2 (proj2 (proj2 (proj2
           (missing_loc_never_matches
              (t.functionDeclaration (Some {| name := "helper" |}) []
                 (t.blockStatement []))
              eq_refl)))) _ _ _)).
Defined.

(** C9, as the claim states it, fails: a named function expression
    without location, on the right of an assignment, is not left
    untouched, it loses its identifier. *)
Lemma missing_loc_counterexample :
  loc (namedExpression None) = None ∧
  visitor.FunctionExpression {[ file := helperCoverage ]} file
      {| node := Some (namedExpression None);
         parent := assignedTo (namedExpression None) |} =
    Normal {| node := Some (NFunctionExpression None [] helperBody None);
              parent := assignedTo (namedExpression None) |} ∧
  NFunctionExpression None [] helperBody None ≠ namedExpression None.
Proof.
  repeat split; try reflexivity. discriminate.
Qed.

(** ** Properties of the statement visitor *)

Lemma Statement_removes_dead
    (coverageForFiles : gmap string FileCoverage) (filename : string)
    (p n : Node) :
  visitor.Statement coverageForFiles filename
      {| node := Some n; parent := p |} =
    {| node := if isDeadStatement coverageForFiles filename n
               then None else Some n;
       parent := p |}.
Proof.
  unfold visitor.Statement, isDeadStatement.
  destruct (coverageForFiles !! filename) as [coverage|]; [|done].
  rewrite forInStatementMap_scan. by destruct (existsb _ _).
Qed.








(** ** Properties of the build script *)

Section build_properties.
Context {Context : Type}.
Variable readFileSync : Completion string.
Variable instrument : string → Completion string.
Variable runInNewContext : string → Completion Context.
Variable precompile : Context → string → Completion (string * Context).
Variable coverage__ : Context → gmap string FileCoverage.
Variable transform : gmap string FileCoverage → string → Completion string.
Variable minify : string → Completion string.
Variable test : string.
Variable succeeded : string → string → string.

(** The validation never throws: what the trimmed program throws is
    logged, and the effects performed before are kept. *)
Lemma validate_returns (templateCompilerCode trimmedCode before : string)
    (log : list Effect) :
  ∃ log', validate Context runInNewContext precompile test succeeded
            templateCompilerCode trimmedCode before log =
          (log ++ log', Normal tt).
Proof.
  unfold validate, tryCatch, call, perform, mbind, Script_bind.
  destruct (runInNewContext trimmedCode) as [context|err];
    [|by eexists].
  destruct (precompile context test) as [out|err]; [|by eexists].
  destruct (String.eqb out.1 before); rewrite <- ?app_assoc; by eexists.
Qed.

Lemma validate_throwing (templateCompilerCode trimmedCode before : string)
    (log : list Effect) (err : Error) :
  runInNewContext trimmedCode = Throw err ∨
  (∃ context, runInNewContext trimmedCode = Normal context ∧
              precompile context test = Throw err) →
  validate Context runInNewContext precompile test succeeded
    templateCompilerCode trimmedCode before log =
  (log ++ [ConsoleError err], Normal tt).
Proof.
  unfold validate, tryCatch, call, perform, mbind, Script_bind.
  intros [->|(context & -> & ->)]; done.
Qed.

(** C8, as amended: if the pruned program throws an exception when it is
    executed during validation (when its script runs, or when its entry
    point is called), the exception is caught and logged, the run goes on,
    the pruned artifact written before the validation stays written, and
    the uglified output is then computed and written, the run ending
    normally, unless the minifier itself throws. (The original program
    runs before the pruning, outside of the [try].) *)
Theorem pruned_failure_is_caught
    (code instrumented before trimmed : string) (context context' : Context)
    (err : Error)
    (Hread : readFileSync = Normal code)
    (Hinstrument : instrument code = Normal instrumented)
    (Hrun : runInNewContext instrumented = Normal context)
    (Hbefore : precompile context test = Normal (before, context'))
    (Htransform : transform (coverage__ context') code = Normal trimmed)
    (Hthrows :
       runInNewContext trimmed = Throw err ∨
       (∃ c, runInNewContext trimmed = Normal c ∧
             precompile c test = Throw err)) :
  build Context readFileSync instrument runInNewContext precompile
        coverage__ transform minify test succeeded [] =
    ([WriteFile "original.js" code;
      WriteFile "instrumented.js" instrumented;
      WriteFile "trimmed.js" trimmed;
      ConsoleError err]
       ++ match minify trimmed with
          | Normal uglified => [WriteFile "uglified.js" uglified]
          | Throw _ => []
          end,
     match minify trimmed with
     | Normal _ => Normal tt
     | Throw e => Throw e
     end).
Proof.
  unfold build, call, perform. unfold mbind, Script_bind.
  rewrite Hread, Hinstrument. cbn [app]. rewrite Hrun, Hbefore.
  cbn [fst snd]. rewrite Htransform. cbn [app].
  rewrite (validate_throwing _ _ _ _ err Hthrows). cbn [app].
  by destruct (minify trimmed).
Qed.

(** Whatever the trimmed program does, the run reaches the minifier with
    the three files written. *)
Lemma build_reaches_minify
    (code instrumented before trimmed : string) (context context' : Context) :
  readFileSync = Normal code →
  instrument code = Normal instrumented →
  runInNewContext instrumented = Normal context →
  precompile context test = Normal (before, context') →
  transform (coverage__ context') code = Normal trimmed →
  ∃ log,
    build Context readFileSync instrument runInNewContext precompile
          coverage__ transform minify test succeeded [] =
      ([WriteFile "original.js" code;
        WriteFile "instrumented.js" instrumented;
        WriteFile "trimmed.js" trimmed]
         ++ log
         ++ match minify trimmed with
            | Normal uglified => [WriteFile "uglified.js" uglified]
            | Throw _ => []
            end,
       match minify trimmed with
       | Normal _ => Normal tt
       | Throw e => Throw e
       end).
Proof.
  intros Hread Hinstrument Hrun Hbefore Htransform.
  unfold build, call, perform. unfold mbind, Script_bind.
  rewrite Hread, Hinstrument. cbn [app]. rewrite Hrun, Hbefore.
  cbn [fst snd]. rewrite Htransform. cbn [app].
  destruct (validate_returns code trimmed before
              [WriteFile "original.js" code;
               WriteFile "instrumented.js" instrumented;
               WriteFile "trimmed.js" trimmed]) as [log ->].
  exists log. destruct (minify trimmed); [|by rewrite app_nil_r].
  by rewrite <- app_assoc.
Qed.

End build_properties.

(** The outputs agree: the success is logged with the output. *)
Example build_outputs_agree :
  build string (Normal "original") sampleInstrument sampleRun originalOutput
        sampleCoverage sampleTransform sampleMinify "input" sampleSucceeded
        [] =
    ([WriteFile "original.js" "original";
      WriteFile "instrumented.js" "instrumented original";
      WriteFile "trimmed.js" "trimmed";
      ConsoleLog "Trimming succeeded!";
      ConsoleLog "output";
      WriteFile "uglified.js" "uglified"],
     Normal tt).
Proof. reflexivity. Qed.

(** The outputs differ: a warning and both outputs are logged, and the
    files are written all the same. *)
Example build_outputs_differ :
  build string (Normal "original") sampleInstrument sampleRun contextOutput
        sampleCoverage sampleTransform sampleMinify "input" sampleSucceeded
        [] =
    ([WriteFile "original.js" "original";
      WriteFile "instrumented.js" "instrumented original";
      WriteFile "trimmed.js" "trimmed";
      ConsoleWarn "Output from trimmed code different from original!";
      ConsoleLog "original: instrumented original";
      ConsoleLog "after   : trimmed";
      WriteFile "uglified.js" "uglified"],
     Normal tt).
Proof. reflexivity. Qed.

Lemma pruned_failure_is_caught_witness :
  build string (Normal "original") sampleInstrument sampleRun prunedThrows
        sampleCoverage sampleTransform sampleMinify "input" sampleSucceeded
        [] =
    ([WriteFile "original.js" "original";
      WriteFile "instrumented.js" "instrumented original";
      WriteFile "trimmed.js" "trimmed";
      ConsoleError (Exception "helper is not a function");
      WriteFile "uglified.js" "uglified"],
     Normal tt).
Proof.
  refine (pruned_failure_is_caught
            (Normal "original") sampleInstrument sampleRun prunedThrows
            sampleCoverage sampleTransform sampleMinify "input"
            sampleSucceeded "original" "instrumented original" "output"
            "trimmed" "instrumented original" "instrumented original"
            (Exception "helper is not a function") _ _ _ _ _ _);
    try reflexivity.
  right. exists "trimmed". split; reflexivity.
Defined.

(** C8, as the claim states it, fails: the original program throws when
    its entry point is called on the test input, the exception is neither
    caught nor logged, the run ends with it, and neither the pruned nor
    the uglified artifact is written. *)
Lemma original_failure_counterexample :
  originalThrows "instrumented original" "input" =
    Throw (Exception "precompile failed") ∧
  build string (Normal "original") sampleInstrument sampleRun originalThrows
        sampleCoverage sampleTransform sampleMinify "input" sampleSucceeded
        [] =
    ([WriteFile "original.js" "original";
      WriteFile "instrumented.js" "instrumented original"],
     Throw (Exception "precompile failed")).
Proof.
  split; reflexivity.
Qed.

(** * Further properties *)

(** ** The matchers *)

(** X1: [isSameFunction] throws exactly when the node has a location, the
    descriptor has a name that is not empty, and the descriptor lacks its
    [loc]; what it throws is then a [TypeError]. *)
Theorem isSameFunction_throws_iff
    (nodeA : option Node) (nodeB : option FnDesc) (e : Error) :
  isSameFunction nodeA nodeB = Throw e ↔
  e = TypeError ∧
  ∃ a b, nodeA = Some a ∧ nodeB = Some b ∧ is_Some (loc a) ∧
         (∃ nm, fn_name b = Some nm ∧ nm ≠ EmptyString) ∧
         fn_loc b = None.
Proof.
  split.
  - unfold isSameFunction.
    destruct nodeA as [a|]; [|done].
    destruct (loc a) as [locA|] eqn:Ha; [|done].
    destruct nodeB as [b|]; [|done].
    destruct (truthy (nameValue b)) eqn:Hn; simpl; [|done].
    destruct (fn_loc b) as [locB|] eqn:Hb.
    + by destruct (negb (line (start locA) =? line (start locB))).
    + intros [= <-]. split; [done|]. exists a, b.
      rewrite Ha. split; [done|]. split; [done|]. split; [by eexists|].
      split; [by apply truthy_nameValue|done].
  - intros (-> & a & b & -> & -> & [locA Ha] & Hn & Hb).
    apply truthy_nameValue in Hn.
    unfold isSameFunction. by rewrite Ha, Hn, Hb.
Qed.

(** X2: on locations, [isSameStatement] is reflexive, symmetric and
    transitive, and it never reads the end column: a location matches
    whatever begins at the same position and ends on the same line. *)
Theorem isSameStatement_equivalence :
  (∀ a, isSameStatement (Some a) (Some a) = JsBool true) ∧
  (∀ a b, isSameStatement (Some a) (Some b) =
          isSameStatement (Some b) (Some a)) ∧
  (∀ a b c, isSameStatement (Some a) (Some b) = JsBool true →
            isSameStatement (Some b) (Some c) = JsBool true →
            isSameStatement (Some a) (Some c) = JsBool true) ∧
  (∀ a b col, isSameStatement (Some a) (Some (withEndColumn col b)) =
              isSameStatement (Some a) (Some b)).
Proof.
  unfold isSameStatement. repeat split.
  - intros a. by rewrite !Z.eqb_refl.
  - intros a b. f_equal.
    by rewrite (Z.eqb_sym (line (start a))), (Z.eqb_sym (line (end_ a))),
      (Z.eqb_sym (column (start a))).
  - intros a b c [= Hab] [= Hbc]. f_equal.
    apply andb_true_iff in Hab as [[H1 H2]%andb_true_iff H3].
    apply andb_true_iff in Hbc as [[H4 H5]%andb_true_iff H6].
    apply Z.eqb_eq in H1, H2, H3, H4, H5, H6.
    rewrite H1, H2, H3, H4, H5, H6. by rewrite !Z.eqb_refl.
Qed.

Lemma isSameStatement_equivalence_witness :
  isSameStatement (Some lines3to5) (Some (withEndColumn 7 lines3to5)) =
    JsBool true ∧
  isSameStatement (Some (withEndColumn 7 lines3to5)) (Some lines3to5) =
    JsBool true ∧
  isSameStatement (Some lines3to5) (Some lines3to5) = JsBool true.
Proof.
  destruct isSameStatement_equivalence as (Hrefl & _ & Htrans & _).
  assert (H1 : isSameStatement (Some lines3to5)
                 (Some (withEndColumn 7 lines3to5)) = JsBool true)
    by reflexivity.
  assert (H2 : isSameStatement (Some (withEndColumn 7 lines3to5))
                 (Some lines3to5) = JsBool true)
    by reflexivity.
  split; [exact H1|]. split; [exact H2|].
  exact (Htrans _ _ _ H1 H2).
Defined.

(** ** The normalization *)

Lemma normalized_id (p n : Node) :
  type p = "AssignmentExpression" → id (normalized p n) = None.
Proof.
  intros Hp. unfold normalized. rewrite Hp. simpl.
  destruct (id n) eqn:Hid; [|done]. by destruct n.
Qed.

Lemma normalized_idempotent (p n : Node) :
  normalized p (normalized p n) = normalized p n.
Proof.
  unfold normalized.
  destruct (String.eqb (type p) "AssignmentExpression");
    destruct n as [[i|] ps b l|[i|] ps b l|b l|o x y l|ty c l]; done.
Qed.

(** X3: the normalization changes nothing but the identifier (putting the
    identifier back gives the node again; type and location are kept), it
    never throws on a path that holds a node, and a second run changes
    nothing more. *)
Theorem stripAssignedName_only_identifier (p n : Node) :
  stripAssignedName {| node := Some n; parent := p |} =
    Normal {| node := Some (normalized p n); parent := p |} ∧
  set_id (id n) (normalized p n) = n ∧
  type (normalized p n) = type n ∧
  loc (normalized p n) = loc n ∧
  stripAssignedName {| node := Some (normalized p n); parent := p |} =
    Normal {| node := Some (normalized p n); parent := p |}.
Proof.
  split; [apply stripAssignedName_normalized|].
  split; [|split; [|split]].
  - unfold normalized.
    destruct (String.eqb (type p) "AssignmentExpression");
      destruct n as [[i|] ps b l|[i|] ps b l|b l|o x y l|ty c l]; done.
  - unfold normalized.
    destruct (String.eqb (type p) "AssignmentExpression");
      destruct n as [[i|] ps b l|[i|] ps b l|b l|o x y l|ty c l]; done.
  - apply normalized_loc.
  - by rewrite stripAssignedName_normalized, normalized_idempotent.
Qed.

(** X4: a function expression on the right of an assignment is matched by
    its lines alone, since its identifier is set to [null] before the
    matcher sees it: the descriptor must have a name that is not empty, and
    both the start lines and the end lines must agree, whatever the names
    are. *)
Theorem assigned_expression_matched_by_lines (p n : Node) (fn : FnDesc)
    (Hassigned : type p = "AssignmentExpression") :
  matchesFunction (normalized p n) fn = true ↔
  (∃ nm, fn_name fn = Some nm ∧ nm ≠ EmptyString) ∧
  ∃ locA locB, loc n = Some locA ∧ fn_loc fn = Some locB ∧
               line (start locA) = line (start locB) ∧
               line (end_ locA) = line (end_ locB).
Proof.
  rewrite <- truthy_nameValue.
  assert (Hname : sameName (normalized p n) fn = false).
  { unfold sameName. by rewrite normalized_id. }
  unfold matchesFunction, isSameFunction. rewrite normalized_loc.
  destruct (loc n) as [locA|].
  - destruct (truthy (nameValue fn)) eqn:Hn; simpl.
    + destruct (fn_loc fn) as [locB|].
      * rewrite Hname. simpl.
        destruct (Z.eqb_spec (line (start locA)) (line (start locB)));
          simpl.
        -- rewrite Z.eqb_eq. split.
           ++ intros He. split; [done|]. by exists locA, locB.
           ++ by intros (_ & ? & ? & [= <-] & [= <-] & _ & ?).
        -- split; [done|].
           by intros (_ & ? & ? & [= <-] & [= <-] & ? & _).
      * split; [done|]. by intros (_ & ? & ? & _ & ? & _).
    + rewrite Hn. split; [done|]. by intros [? _].
  - split; [done|]. by intros (_ & ? & ? & ? & _).
Qed.

Lemma assigned_expression_matched_by_lines_witness :
  type (assignedTo (namedExpression (Some lines3to5))) =
    "AssignmentExpression" ∧
  matchesFunction
    (normalized (assignedTo (namedExpression (Some lines3to5)))
                (namedExpression (Some lines3to5)))
    {| fn_name := Some "f";
       fn_loc := Some {| start := pos 3 0; end_ := pos 6 1 |} |} = false.
Proof.
  split; [reflexivity|].
  apply not_true_is_false. intros Hm.
  apply (proj1 (assigned_expression_matched_by_lines
                  (assignedTo (namedExpression (Some lines3to5)))
                  (namedExpression (Some lines3to5)) _ eq_refl)) in Hm.
  destruct Hm as (_ & locA & locB & [= <-] & [= <-] & _ & Hend).
  discriminate Hend.
Defined.

(** ** Visiting again *)

(** The loop of the function visitors returns the path it was given or
    that path with the stub in place of the node. *)
Lemma forInFnMap_result noop coverage path entries path' :
  forInFnMap noop coverage path entries = Normal path' →
  path' = path ∨
  ∃ stub, noop path = Normal stub ∧ path' = replaceWith stub path.
Proof.
  induction entries as [|[fnNum fn] entries IH]; simpl.
  - intros [= <-]. by left.
  - destruct (isSameFunction (node path) (Some fn)) as [v|e]; simpl; [|done].
    destruct (negb (truthy v)); [done|].
    destruct (negb (isZero (f coverage) fnNum)); [done|].
    destruct (noop path) as [stub|e]; simpl; [|done].
    intros [= <-]. right. by exists stub.
Qed.

Lemma declarationNoop_loc path stub :
  declarationNoop path = Normal stub → loc stub = None.
Proof.
  unfold declarationNoop, nodeId. destruct (node path); simpl; [|done].
  by intros [= <-].
Qed.

(** X5: a path that a function visitor returned is left as it is when
    the visitor is run on it again: the stub has no location, so that no
    descriptor matches it, and a name that was stripped stays stripped. *)
Theorem function_visitors_settle
    (coverageForFiles : gmap string FileCoverage) (filename : string)
    (path path' : NodePath) :
  (visitor.FunctionDeclaration coverageForFiles filename path = Normal path' →
   visitor.FunctionDeclaration coverageForFiles filename path' =
     Normal path') ∧
  (visitor.FunctionExpression coverageForFiles filename path = Normal path' →
   visitor.FunctionExpression coverageForFiles filename path' =
     Normal path').
Proof.
  split.
  - unfold visitor.FunctionDeclaration.
    destruct (coverageForFiles !! filename) as [coverage|]; [|by intros [= <-]].
    intros Hrun.
    destruct (forInFnMap_result _ _ _ _ _ Hrun) as [->|(stub & Hstub & ->)];
      [done|].
    apply declarationNoop_loc in Hstub.
    by apply forInFnMap_no_loc.
  - unfold visitor.FunctionExpression.
    destruct path as [[n|] p]; [|done].
    rewrite stripAssignedName_normalized. cbn [mbind Completion_bind].
    destruct (coverageForFiles !! filename) as [coverage|].
    + intros Hrun.
      destruct (forInFnMap_result _ _ _ _ _ Hrun) as [->|(stub & Hstub & ->)].
      * rewrite stripAssignedName_normalized, normalized_idempotent.
        cbn [mbind Completion_bind]. done.
      * injection Hstub as <-. unfold replaceWith. cbn [parent].
        rewrite stripAssignedName_normalized. cbn [mbind Completion_bind].
        unfold normalized. cbn [id t.functionExpression].
        by apply forInFnMap_no_loc.
    + intros [= <-].
      rewrite stripAssignedName_normalized, normalized_idempotent. done.
Qed.

Lemma function_visitors_settle_witness :
  visitor.FunctionDeclaration {[ file := helperCoverage ]} file
      {| node := Some (NFunctionDeclaration (Some {| name := "helper" |})
                         [] (NBlockStatement [] None) None);
         parent := NOther "Program" [helper] None |} =
    Normal {| node := Some (NFunctionDeclaration (Some {| name := "helper" |})
                              [] (NBlockStatement [] None) None);
              parent := NOther "Program" [helper] None |}.
Proof.
  refine (proj1 (function_visitors_settle
                   {[ file := helperCoverage ]} file
                   {| node := Some helper;
                      parent := NOther "Program" [helper] None |} _) _).
  reflexivity.
Defined.

(** The loop of the statement visitor on a path whose node is [null]. *)
Lemma forInStatementMap_null coverage (p : Node) entries :
  forInStatementMap coverage {| node := None; parent := p |} entries =
  {| node := None; parent := p |}.
Proof.
  induction entries as [|[sNum s_] entries IH]; [done|].
  cbn [forInStatementMap notSameStatement node].
  by destruct (negb (isZero (s coverage) sNum)).
Qed.

(** X6: the statement visitor does nothing on a path whose node is [null]
    (a path that was removed), whatever the report holds, so that running
    it again on its own result changes nothing. *)
Theorem Statement_settles
    (coverageForFiles : gmap string FileCoverage) (filename : string) :
  (∀ p, visitor.Statement coverageForFiles filename
          {| node := None; parent := p |} =
        {| node := None; parent := p |}) ∧
  (∀ path, visitor.Statement coverageForFiles filename
             (visitor.Statement coverageForFiles filename path) =
           visitor.Statement coverageForFiles filename path).
Proof.
  assert (Hnull : ∀ p, visitor.Statement coverageForFiles filename
                         {| node := None; parent := p |} =
                       {| node := None; parent := p |}).
  { intros p. unfold visitor.Statement.
    destruct (coverageForFiles !! filename); [|done].
    apply forInStatementMap_null. }
  split; [done|]. intros [[n|] p]; [|by rewrite !Hnull].
  rewrite Statement_removes_dead.
  destruct (isDeadStatement coverageForFiles filename n) eqn:Hdead.
  - apply Hnull.
  - by rewrite Statement_removes_dead, Hdead.
Qed.

(** ** Entries that were hit, and the order of the entries *)

(** The loops pass over an entry whose hit count is not [0]. *)
Lemma forInFnMap_skip_live noop coverage path before k b after :
  is_Some (fn_loc b) → isZero (f coverage) k = false →
  forInFnMap noop coverage path (before ++ (k, b) :: after) =
  forInFnMap noop coverage path (before ++ after).
Proof.
  intros Hloc Hz. induction before as [|[fnNum fn] before IH]; simpl.
  - destruct (isSameFunction_returns (node path) b Hloc) as [v ->]. simpl.
    rewrite Hz. simpl. by destruct (negb (truthy v)).
  - destruct (isSameFunction (node path) (Some fn)) as [v|e]; simpl; [|done].
    destruct (negb (truthy v)); [done|].
    by destruct (negb (isZero (f coverage) fnNum)).
Qed.

Lemma forInStatementMap_skip_live coverage path before k l after :
  isZero (s coverage) k = false →
  forInStatementMap coverage path (before ++ (k, l) :: after) =
  forInStatementMap coverage path (before ++ after).
Proof.
  intros Hz. induction before as [|[sNum s_] before IH]; simpl.
  - rewrite Hz. simpl. by destruct (notSameStatement path l).
  - destruct (notSameStatement path s_); [done|].
    by destruct (negb (isZero (s coverage) sNum)).
Qed.

Lemma forInStatementMap_withStatementMap coverage path other entries :
  forInStatementMap (withStatementMap other coverage) path entries =
  forInStatementMap coverage path entries.
Proof.
  induction entries as [|[sNum s_] entries IH]; simpl; [done|].
  by rewrite IH.
Qed.

(** X7: only an entry with hit count exactly 0 can have a node rewritten.
    An entry whose key has a count other than 0, or no count at all, can be
    deleted from [statementMap] without any change to what the statement
    visitor does, and, when it has its [loc], from [fnMap] without any
    change to what the function visitors do. *)
Theorem live_entries_do_not_matter
    (coverageForFiles : gmap string FileCoverage) (filename : string)
    (coverage : FileCoverage) (path : NodePath)
    (Hreport : coverageForFiles !! filename = Some coverage) :
  (∀ before k l after,
     f coverage !! k ≠ Some 0 → is_Some (fn_loc l) →
     fnMap coverage = before ++ (k, l) :: after →
     let without :=
       <[filename := withFnMap (before ++ after) coverage]> coverageForFiles in
     visitor.FunctionDeclaration coverageForFiles filename path =
       visitor.FunctionDeclaration without filename path ∧
     visitor.FunctionExpression coverageForFiles filename path =
       visitor.FunctionExpression without filename path) ∧
  (∀ before k l after,
     s coverage !! k ≠ Some 0 →
     statementMap coverage = before ++ (k, l) :: after →
     visitor.Statement coverageForFiles filename path =
     visitor.Statement
       (<[filename := withStatementMap (before ++ after) coverage]>
          coverageForFiles)
       filename path).
Proof.
  split.
  - intros before k l after Hcount Hloc Hmap without.
    assert (Hz : isZero (f coverage) k = false).
    { apply not_true_is_false. by rewrite isZero_true. }
    unfold visitor.FunctionDeclaration, visitor.FunctionExpression, without.
    rewrite Hreport, lookup_insert_eq, Hmap. simpl.
    rewrite !forInFnMap_withFnMap. split.
    + by apply forInFnMap_skip_live.
    + destruct (stripAssignedName path) as [path'|e]; simpl; [|done].
      rewrite forInFnMap_withFnMap. by apply forInFnMap_skip_live.
  - intros before k l after Hcount Hmap.
    assert (Hz : isZero (s coverage) k = false).
    { apply not_true_is_false. by rewrite isZero_true. }
    unfold visitor.Statement.
    rewrite Hreport, lookup_insert_eq, Hmap. simpl.
    rewrite forInStatementMap_withStatementMap.
    by apply forInStatementMap_skip_live.
Qed.

Lemma live_entries_do_not_matter_witness :
  s blockCoverage !! "7" ≠ Some 0 ∧
  visitor.Statement {[ file := blockCoverage ]} file
      {| node := Some (statementAt 10); parent := threeStatements |} =
  visitor.Statement
      (<[file := withStatementMap
                   [("8", {| start := pos 11 2; end_ := pos 11 9 |})]
                   blockCoverage]> {[ file := blockCoverage ]})
      file {| node := Some (statementAt 10); parent := threeStatements |}.
Proof.
  assert (Hcount : s blockCoverage !! "7" ≠ Some 0) by discriminate.
  split; [exact Hcount|].
  refine (proj2 (live_entries_do_not_matter
                   {[ file := blockCoverage ]} file blockCoverage _ _)
                [] "7" _ _ Hcount _).
  - reflexivity.
  - reflexivity.
Defined.

Lemma existsb_Permutation {A : Type} (test : A → bool) (l l' : list A) :
  Permutation l l' → existsb test l = existsb test l'.
Proof.
  induction 1 as [|x l l' _ IH|x y l|l l' l'' _ IH1 _ IH2]; simpl.
  - done.
  - by rewrite IH.
  - by destruct (test x), (test y).
  - by rewrite IH1.
Qed.

Lemma forInFnMap_null noop coverage (p : Node) entries :
  forInFnMap noop coverage {| node := None; parent := p |} entries =
  Normal {| node := None; parent := p |}.
Proof. induction entries as [|[fnNum fn] entries IH]; [done|]. by simpl. Qed.

(** X8: the order in which [for ... in] enumerates the entries does not
    matter. The statement visitor does the same on any permutation of
    [statementMap], and so do the function visitors on any permutation of
    an [fnMap] whose entries have their [loc]. *)
Theorem order_of_entries_does_not_matter
    (coverageForFiles : gmap string FileCoverage) (filename : string)
    (coverage : FileCoverage) (path : NodePath)
    (Hreport : coverageForFiles !! filename = Some coverage) :
  (∀ entries, Permutation (statementMap coverage) entries →
     visitor.Statement coverageForFiles filename path =
     visitor.Statement
       (<[filename := withStatementMap entries coverage]> coverageForFiles)
       filename path) ∧
  (∀ entries, locatedEntries coverage →
     Permutation (fnMap coverage) entries →
     let permuted :=
       <[filename := withFnMap entries coverage]> coverageForFiles in
     visitor.FunctionDeclaration coverageForFiles filename path =
       visitor.FunctionDeclaration permuted filename path ∧
     visitor.FunctionExpression coverageForFiles filename path =
       visitor.FunctionExpression permuted filename path).
Proof.
  split.
  - intros entries Hperm. unfold visitor.Statement.
    rewrite Hreport, lookup_insert_eq. simpl.
    rewrite forInStatementMap_withStatementMap.
    destruct path as [[n|] p]; [|by rewrite !forInStatementMap_null].
    rewrite !forInStatementMap_scan.
    by rewrite (existsb_Permutation _ _ _ Hperm).
  - intros entries Hlocated Hperm permuted.
    assert (Hlocated' : Forall (λ e, is_Some (fn_loc e.2)) entries).
    { unfold locatedEntries in Hlocated. by rewrite <- Hperm. }
    unfold visitor.FunctionDeclaration, visitor.FunctionExpression, permuted.
    rewrite Hreport, lookup_insert_eq. simpl.
    rewrite !forInFnMap_withFnMap. split.
    + destruct path as [[n|] p]; [|by rewrite !forInFnMap_null].
      rewrite !forInFnMap_scan by done.
      by rewrite (existsb_Permutation _ _ _ Hperm).
    + destruct path as [[n|] p]; [|done].
      rewrite stripAssignedName_normalized. cbn [mbind Completion_bind].
      rewrite forInFnMap_withFnMap, !forInFnMap_scan by done.
      by rewrite (existsb_Permutation _ _ _ Hperm).
Qed.

Lemma order_of_entries_does_not_matter_witness :
  visitor.FunctionExpression {[ file := oneLineCoverage ]} file
      {| node := Some usedCallback; parent := eachCall |} =
  visitor.FunctionExpression
      (<[file := withFnMap (reverse (fnMap oneLineCoverage))
                   oneLineCoverage]> {[ file := oneLineCoverage ]})
      file {| node := Some usedCallback; parent := eachCall |}.
Proof.
  refine (proj2 (proj2 (order_of_entries_does_not_matter
                          {[ file := oneLineCoverage ]} file oneLineCoverage
                          _ _)
                       (reverse (fnMap oneLineCoverage)) _ _)).
  - reflexivity.
  - repeat constructor; by eexists.
  - apply Permutation_sym, reverse_Permutation.
Defined.

(** ** The build script, whatever the collaborators do *)

Section build_runs.
Context {Context : Type}.
Variable readFileSync : Completion string.
Variable instrument : string → Completion string.
Variable runInNewContext : string → Completion Context.
Variable precompile : Context → string → Completion (string * Context).
Variable coverage__ : Context → gmap string FileCoverage.
Variable transform : gmap string FileCoverage → string → Completion string.
Variable minify : string → Completion string.
Variable test : string.
Variable succeeded : string → string → string.

Local Abbreviation run :=
  (build Context readFileSync instrument runInNewContext precompile
         coverage__ transform minify test succeeded []).

Local Ltac validate_cases trimmed before :=
  unfold validate, tryCatch, call, perform;
  unfold mbind, Script_bind;
  destruct (runInNewContext trimmed) as [context''|?] eqn:Hrun;
    [destruct (precompile context'' test) as [[after ?]|?] eqn:Hcall;
       cbn [fst snd];
       [destruct (String.eqb after before) eqn:Hsame|]|];
    cbn [app].

Local Ltac run_cases :=
  unfold build, validate, tryCatch, call, perform;
  unfold mbind, Script_bind;
  destruct readFileSync as [code|?] eqn:?; cbn [app];
    [destruct (instrument code) as [instrumented|?] eqn:?; cbn [app];
       [destruct (runInNewContext instrumented) as [context|?] eqn:?;
          [destruct (precompile context test) as [[before context']|?] eqn:?;
             cbn [fst snd];
             [destruct (transform (coverage__ context') code)
                as [trimmed|?] eqn:?; cbn [app];
                [destruct (runInNewContext trimmed) as [context''|?] eqn:?;
                   [destruct (precompile context'' test)
                      as [[after ?]|?] eqn:?;
                      cbn [fst snd];
                      [destruct (String.eqb after before) eqn:?|]|];
                   cbn [app];
                   destruct (minify trimmed) as [uglified|?] eqn:?;
                   cbn [app]
                | ]
             | ]
          | ]
       | ]
    | ].

Local Ltac in_cases H :=
  repeat (apply elem_of_cons in H as [H|H]; try discriminate H);
  try (by apply elem_of_nil in H).

(** X9: the files are written in the order [original.js],
    [instrumented.js], [trimmed.js], [uglified.js], each at most once and
    none without the ones before it. [original.js] holds the code that was
    read, [instrumented.js] its instrumentation, [trimmed.js] the
    transform of the code that was read, under the coverage found in the
    context after the call on the test input, and [uglified.js] the
    minification of what [trimmed.js] holds. *)
Theorem build_writes_in_order :
  (∃ n, (writes run.1).*1 = take n artifacts) ∧
  (∀ data, ("original.js", data) ∈ writes run.1 →
           readFileSync = Normal data) ∧
  (∀ data, ("instrumented.js", data) ∈ writes run.1 →
           ∃ code, ("original.js", code) ∈ writes run.1 ∧
                   instrument code = Normal data) ∧
  (∀ data, ("trimmed.js", data) ∈ writes run.1 →
           ∃ code instrumented context out,
             readFileSync = Normal code ∧
             instrument code = Normal instrumented ∧
             runInNewContext instrumented = Normal context ∧
             precompile context test = Normal out ∧
             transform (coverage__ out.2) code = Normal data) ∧
  (∀ data, ("uglified.js", data) ∈ writes run.1 →
           ∃ trimmed, ("trimmed.js", trimmed) ∈ writes run.1 ∧
                      minify trimmed = Normal data).
Proof.
  run_cases; cbn [fst writes omap list_omap];
    (split; [first [by exists 0%nat | by exists 1%nat | by exists 2%nat
                   | by exists 3%nat | by exists 4%nat]|]);
    (split; [|split; [|split]]); intros data Hin; in_cases Hin;
    injection Hin as ->;
    try done;
    try (by do 4 eexists; repeat split; eassumption);
    eexists; (split; [|eassumption]);
    repeat first [by apply list_elem_of_here | apply list_elem_of_further].
Qed.

(** X10: the run ends normally only if the read, the instrumentation, the
    run of the instrumented program, its call on the test input, the
    transform and the minification all returned, and then all four files
    were written, in their order. *)
Theorem build_returns_only_if :
  run.2 = Normal tt →
  (∃ code instrumented context out trimmed uglified,
     readFileSync = Normal code ∧
     instrument code = Normal instrumented ∧
     runInNewContext instrumented = Normal context ∧
     precompile context test = Normal out ∧
     transform (coverage__ out.2) code = Normal trimmed ∧
     minify trimmed = Normal uglified) ∧
  (writes run.1).*1 = artifacts.
Proof.
  run_cases; cbn [fst snd writes omap list_omap]; try done;
    intros _; (split; [|done]);
    do 6 eexists; repeat split; eassumption.
Qed.

(** X11: an exception thrown before the [try] ends the run with that
    exception: by the read, with nothing written; by the instrumentation,
    with [original.js] alone; by the run of the instrumented program, by
    its call on the test input or by the transform, with [original.js]
    and [instrumented.js]. Nothing is printed on the console. *)
Theorem failure_before_try_ends_run (e : Error) :
  (readFileSync = Throw e → run = ([], Throw e)) ∧
  (∀ code, readFileSync = Normal code → instrument code = Throw e →
           run = ([WriteFile "original.js" code], Throw e)) ∧
  (∀ code instrumented,
     readFileSync = Normal code → instrument code = Normal instrumented →
     runInNewContext instrumented = Throw e ∨
     (∃ context, runInNewContext instrumented = Normal context ∧
                 precompile context test = Throw e) ∨
     (∃ context out, runInNewContext instrumented = Normal context ∧
                     precompile context test = Normal out ∧
                     transform (coverage__ out.2) code = Throw e) →
     run = ([WriteFile "original.js" code;
             WriteFile "instrumented.js" instrumented], Throw e)).
Proof.
  unfold build, call, perform. unfold mbind, Script_bind.
  split; [|split].
  - by intros ->.
  - intros code -> ->. done.
  - intros code instrumented -> ->. cbn [app].
    intros [->|[(context & -> & ->)|(context & out & -> & -> & Ht)]];
      try done.
    by rewrite Ht.
Qed.

(** X12: the validation never throws and writes no file; it prints the
    error if and only if the trimmed program throws it (when its script
    runs or when it is called on the test input), a warning if and only
    if the trimmed program returns an output that is not the original
    output, and otherwise the message of success followed by the
    output. *)
Theorem validate_verdict (code trimmed before : string) (log : list Effect) :
  ∃ added,
    validate Context runInNewContext precompile test succeeded
             code trimmed before log = (log ++ added, Normal tt) ∧
    writes added = [] ∧
    (∀ err, ConsoleError err ∈ added ↔
            runInNewContext trimmed = Throw err ∨
            ∃ context, runInNewContext trimmed = Normal context ∧
                       precompile context test = Throw err) ∧
    ((∃ msg, ConsoleWarn msg ∈ added) ↔
     ∃ context out, runInNewContext trimmed = Normal context ∧
                    precompile context test = Normal out ∧
                    out.1 ≠ before) ∧
    ((∃ context out, runInNewContext trimmed = Normal context ∧
                     precompile context test = Normal out ∧
                     out.1 = before) →
     added = [ConsoleLog (succeeded trimmed code); ConsoleLog before]).
Proof.
  validate_cases trimmed before; rewrite <- ?app_assoc; cbn [app];
    eexists; (split; [reflexivity|]); (split; [reflexivity|]);
    (split; [|split]).
  - intros err. split; [intros Hin; in_cases Hin|].
    intros [?|(? & [= <-] & ?)]; congruence.
  - split; [intros [msg Hin]; in_cases Hin|].
    intros (? & out & [= <-] & Hout & Hne).
    rewrite Hcall in Hout. injection Hout as <-.
    by apply String.eqb_eq in Hsame.
  - intros (? & out & [= <-] & Hout & <-).
    rewrite Hcall in Hout. injection Hout as <-.
    by apply String.eqb_eq in Hsame as ->.
  - intros err. split; [intros Hin; in_cases Hin|].
    intros [?|(? & [= <-] & ?)]; congruence.
  - split; [|intros _; eexists; apply list_elem_of_here].
    intros _. exists context'', (after, c). repeat split; [done|].
    by apply String.eqb_neq in Hsame.
  - intros (? & out & [= <-] & Hout & <-).
    rewrite Hcall in Hout. injection Hout as <-.
    by rewrite String.eqb_refl in Hsame.
  - intros err. split.
    + intros Hin. in_cases Hin. injection Hin as ->. right. by eexists.
    + intros [?|(? & [= <-] & ?)]; [done|].
      replace err with e by congruence. apply list_elem_of_here.
  - split; [intros [msg Hin]; in_cases Hin|].
    intros (? & ? & [= <-] & ? & _). congruence.
  - intros (? & ? & [= <-] & ? & _). congruence.
  - intros err. split.
    + intros Hin. in_cases Hin. injection Hin as ->. by left.
    + intros [[= ->]|(? & ? & _)]; [apply list_elem_of_here|done].
  - split; [intros [msg Hin]; in_cases Hin|].
    by intros (? & ? & ? & _).
  - by intros (? & ? & ? & _).
Qed.

End build_runs.

Lemma build_writes_in_order_witness :
  ("uglified.js", "uglified") ∈
    writes (build string (Normal "original") sampleInstrument sampleRun
              prunedThrows sampleCoverage sampleTransform sampleMinify
              "input" sampleSucceeded []).1 ∧
  ∃ trimmed,
    ("trimmed.js", trimmed) ∈
      writes (build string (Normal "original") sampleInstrument sampleRun
                prunedThrows sampleCoverage sampleTransform sampleMinify
                "input" sampleSucceeded []).1 ∧
    sampleMinify trimmed = Normal "uglified".
Proof.
  assert (Hin : ("uglified.js", "uglified") ∈
            writes (build string (Normal "original") sampleInstrument
                      sampleRun prunedThrows sampleCoverage sampleTransform
                      sampleMinify "input" sampleSucceeded []).1).
  { change (("uglified.js", "uglified") ∈
              [("original.js", "original");
               ("instrumented.js", "instrumented original");
               ("trimmed.js", "trimmed"); ("uglified.js", "uglified")]).
    repeat first [apply list_elem_of_here | apply list_elem_of_further]. }
  split; [exact Hin|].
  exact (proj2 (proj2 (proj2 (proj2
           (build_writes_in_order (Normal "original") sampleInstrument
              sampleRun prunedThrows sampleCoverage sampleTransform
              sampleMinify "input" sampleSucceeded)))) "uglified" Hin).
Defined.

Lemma build_returns_only_if_witness :
  (build string (Normal "original") sampleInstrument sampleRun
     prunedThrows sampleCoverage sampleTransform sampleMinify
     "input" sampleSucceeded []).2 = Normal tt ∧
  (writes (build string (Normal "original") sampleInstrument sampleRun
             prunedThrows sampleCoverage sampleTransform sampleMinify
             "input" sampleSucceeded []).1).*1 = artifacts.
Proof.
  assert (Hret : (build string (Normal "original") sampleInstrument sampleRun
                    prunedThrows sampleCoverage sampleTransform sampleMinify
                    "input" sampleSucceeded []).2 = Normal tt)
    by reflexivity.
  split; [exact Hret|].
  exact (proj2 (build_returns_only_if (Normal "original") sampleInstrument
                  sampleRun prunedThrows sampleCoverage sampleTransform
                  sampleMinify "input" sampleSucceeded Hret)).
Defined.

Lemma failure_before_try_ends_run_witness :
  originalThrows "instrumented original" "input" =
    Throw (Exception "precompile failed") ∧
  build string (Normal "original") sampleInstrument sampleRun originalThrows
        sampleCoverage sampleTransform sampleMinify "input" sampleSucceeded
        [] =
    ([WriteFile "original.js" "original";
      WriteFile "instrumented.js" "instrumented original"],
     Throw (Exception "precompile failed")).
Proof.
  split; [reflexivity|].
  refine (proj2 (proj2 (failure_before_try_ends_run
                          (Normal "original") sampleInstrument sampleRun
                          originalThrows sampleCoverage sampleTransform
                          sampleMinify "input" sampleSucceeded
                          (Exception "precompile failed")))
                "original" "instrumented original" _ _ _).
  - reflexivity.
  - reflexivity.
  - right. left. exists "instrumented original". split; reflexivity.
Defined.

Lemma validate_verdict_witness :
  ∃ added,
    validate string sampleRun contextOutput "input" sampleSucceeded
             "original" "trimmed" "instrumented original" [] =
      (added, Normal tt) ∧
    ∃ msg, ConsoleWarn msg ∈ added.
Proof.
  destruct (validate_verdict sampleRun contextOutput "input" sampleSucceeded
              "original" "trimmed" "instrumented original" [])
    as (added & Hrun & _ & _ & Hwarn & _).
  exists added. split; [exact Hrun|].
  apply Hwarn. exists "trimmed", ("trimmed", "trimmed").
  repeat split. discriminate.
Defined.
